(** * nvFuser operator support: the support table and the node predicate

    A shallow embedding of
    [torch/fx/passes/backends/nvfuser/operator_support.py]:
    the constructor of [NvFuserOperatorSupport], which assembles the support
    dictionary from the TorchScript list, the decomposition table and the
    [torch.ops.prims] namespace, and [is_node_supported], the per-node
    predicate of the partitioner. *)

From Stdlib Require Import String Ascii.
From stdpp Require Import base option list gmap strings fin_maps.

Local Open Scope string_scope.

(** ** Python strings *)

(** [needle in haystack] on [str]: some slice of [haystack] equals
    [needle].  The empty string occurs in every string. *)
Fixpoint str_in (needle haystack : string) : bool :=
  if String.prefix needle haystack then true
  else match haystack with
       | EmptyString => false
       | String _ rest => str_in needle rest
       end.

(** The relation [str_in] decides. *)
Definition occurs_in (needle haystack : string) : Prop :=
  ∃ before after, haystack = before +:+ needle +:+ after.

(** ** Exceptions

    The constructor reads an attribute that an object may lack; reading a
    missing attribute raises.  Statements are threaded through a small
    exception monad. *)

Inductive PyExc : Type :=
| AttributeError (attr : string).

Inductive Result (A : Type) : Type :=
| Ok (a : A)
| Raise (e : PyExc).
Arguments Ok {A} a.
Arguments Raise {A} e.

#[global] Instance Result_ret : MRet Result := @Ok.

#[global] Instance Result_bind : MBind Result := λ A B f m,
  match m with
  | Ok a => f a
  | Raise e => Raise e
  end.

(** [for x in xs: body], with the loop-carried state passed along; the
    first exception leaves the loop. *)
Fixpoint for_each {A S : Type} (body : S → A → Result S) (xs : list A) (s : S)
  : Result S :=
  match xs with
  | [] => mret s
  | x :: xs' => s' ← body s x; for_each body xs' s'
  end.

(** ** Objects of [torch._ops] and the external registries *)

(** An overload packet and one of its overloads.  [packet_str] and
    [overload_str] are what [str] returns on them ("aten.add",
    "aten.add.Tensor"); [torch/_ops.py] itself is outside this
    development, so the rendering is carried by the object. *)
Record OpOverloadPacket : Type := { packet_str : string }.

Record OpOverload : Type :=
  { overloadpacket : OpOverloadPacket; overload_str : string }.

(** What a key of the decomposition table or an attribute of an operator
    namespace can be. *)
Inductive PyObject : Type :=
| ObjOpOverload (o : OpOverload)
| ObjOpOverloadPacket (p : OpOverloadPacket)
| ObjOther (repr : string).

Definition isinstance_OpOverloadPacket (x : PyObject) : bool :=
  match x with ObjOpOverloadPacket _ => true | _ => false end.

Definition str (x : PyObject) : string :=
  match x with
  | ObjOpOverload o => overload_str o
  | ObjOpOverloadPacket p => packet_str p
  | ObjOther repr => repr
  end.

(** A value of the decomposition table: a callable, of which the
    constructor looks at the [__module__] attribute only.  [None] is an
    object without that attribute. *)
Record Callable : Type := { __module__ : option string }.

Definition hasattr_module (v : Callable) : bool :=
  match __module__ v with Some _ => true | None => false end.

(** [v.__module__] *)
Definition getattr_module (v : Callable) : Result string :=
  match __module__ v with
  | Some m => mret m
  | None => Raise (AttributeError "__module__")
  end.

(** [decomposition_table.items()] and, for [torch.ops.prims], the names
    of [dir] paired with what [getattr] returns on them, in iteration
    order. *)
Abbreviation DecompositionTable := (list (PyObject * Callable)).
Abbreviation OpNamespace := (list (string * PyObject)).

(** A dictionary display [{k1: None, k2: None, ...}]. *)
Definition dict_display (keys : list string) : gmap string unit :=
  foldl (λ d k, <[k:=tt]> d) ∅ keys.

(** [d[k] = None] for each [k] of [keys], in order. *)
Definition add_keys (d : gmap string unit) (keys : list string)
  : gmap string unit :=
  foldl (λ d k, <[k:=tt]> d) d keys.

(** [key in d] *)
Definition contains (d : gmap string unit) (key : string) : bool :=
  match d !! key with Some _ => true | None => false end.

(** ** Graph nodes *)

Module fx.
(** A node of a traced graph: its opcode and the qualified name of the
    operation it calls. *)
Record Node : Type := { op : string; qualified_name : string }.
End fx.

(** Modelled from the spec: [CALLABLE_NODE_OPS] of
    [torch/fx/passes/tools_common.py], the callable kinds function call,
    method call and module call, under their opcodes. *)
Definition CALLABLE_NODE_OPS : gset string :=
  {[ "call_module"; "call_function"; "call_method" ]}.

(** Modelled from the spec: [OperatorSupport.is_node_supported] of
    [torch/fx/passes/operator_support.py], the method of the base class,
    on a callable node: true iff the qualified operation name of the node
    is present in the support table. *)
Definition OperatorSupport_is_node_supported {Module_ : Type}
    (support_dict : gmap string unit) (submodules : gmap string Module_)
    (node : fx.Node) : bool :=
  contains support_dict (fx.qualified_name node).

(** ** The class [NvFuserOperatorSupport] *)

Module NvFuserOperatorSupport.

Definition jit_keys : list string := [
  (* call_function aten *)
  "torch.ops.aten.add"; "torch.ops.aten.sub";
  "torch.ops.aten.rsub"; "torch.ops.aten.atan2";
  "torch.ops.aten.mul"; "torch.ops.aten.max";
  "torch.ops.aten.min"; "torch.ops.aten.pow";
  "torch.ops.aten.remainder"; "torch.ops.aten.fmod";
  "torch.ops.aten.bitwise_and"; "torch.ops.aten.__and__";
  "torch.ops.aten.bitwise_or"; "torch.ops.aten.__or__";
  "torch.ops.aten.bitwise_xor"; "torch.ops.aten.__xor__";
  "torch.ops.aten.bitwise_left_shift"; "torch.ops.aten.__lshift__";
  "torch.ops.aten.bitwise_right_shift"; "torch.ops.aten.__rshift__";
  "torch.ops.aten.eq"; "torch.ops.aten.ne";
  "torch.ops.aten.ge"; "torch.ops.aten.gt";
  "torch.ops.aten.le"; "torch.ops.aten.lt";
  "torch.ops.aten.abs"; "torch.ops.aten.bitwise_not";
  "torch.ops.aten.ceil"; "torch.ops.aten.floor";
  "torch.ops.aten.frac"; "torch.ops.aten.neg";
  "torch.ops.aten.relu"; "torch.ops.aten.round";
  "torch.ops.aten.silu"; "torch.ops.aten.trunc";
  "torch.ops.aten.log"; "torch.ops.aten.log10";
  "torch.ops.aten.log1p"; "torch.ops.aten.log2";
  "torch.ops.aten.lgamma"; "torch.ops.aten.exp";
  "torch.ops.aten.expm1"; "torch.ops.aten.erf";
  "torch.ops.aten.erfc"; "torch.ops.aten.cos";
  "torch.ops.aten.acos"; "torch.ops.aten.cosh";
  "torch.ops.aten.sin"; "torch.ops.aten.asin";
  "torch.ops.aten.sinh"; "torch.ops.aten.tan";
  "torch.ops.aten.atan"; "torch.ops.aten.tanh";
  "torch.ops.aten.atanh"; "torch.ops.aten.sqrt";
  "torch.ops.aten.rsqrt"; "torch.ops.aten.reciprocal";
  "torch.ops.aten.sigmoid"; "torch.ops.aten.isfinite";
  "torch.ops.aten.isinf"; "torch.ops.aten.isnan";
  "torch.ops.aten.isneginf"; "torch.ops.aten.isposinf";
  "torch.ops.aten.isreal"; "torch.ops.aten.rand_like";
  "torch.ops.aten.softplus"; "torch.ops.aten.threshold";
  "torch.ops.aten.clamp"; "torch.ops.aten.where";
  "torch.ops.aten.lerp"; "torch.ops.aten.addcmul";
  "torch.ops.aten.native_dropout"; "torch.ops.aten.dropout";
  "torch.ops.aten.native_dropout_backward"; "torch.ops.aten.instance_norm";
  "torch.ops.aten._batch_norm_impl_index"; "torch.ops.aten.native_batch_norm";
  "torch.ops.aten.batch_norm"; "torch.ops.aten.cudnn_batch_norm";
  "torch.ops.aten._batch_norm_impl_index_backward"; "torch.ops.aten.native_batch_norm_backward";
  "torch.ops.aten.native_layer_norm"; "torch.ops.aten.layer_norm";
  "torch.ops.aten.softmax.int"; "torch.ops.aten.log_softmax.int";
  "torch.ops.aten._log_softmax_backward_data"; "torch.ops.aten._softmax_backward_data";
  "torch.ops.aten.var.dim"; "torch.ops.aten.std.dim";
  "torch.ops.aten.sum.dim_IntList"; "torch.ops.aten.mean.dim";
  "torch.ops.aten._grad_sum_to_size"; "torch.ops.aten.sum_to_size";
  "torch.ops.aten._autocast_to_reduced_precision"; "torch.ops.aten._autocast_to_full_precision";
  "torch.ops.aten.to.dtype"; "torch.ops.aten.type_as";
  "torch.ops.aten.linear"; "torch.ops.aten.gelu";
  "torch.ops.aten.gelu_backward"; "torch.ops.aten.amin";
  "torch.ops.aten.reshape"; "torch.ops.aten.flatten.using_ints";
  "getattr"; "_operator.getitem"
].

Definition jit_dict : gmap string unit := dict_display jit_keys.

(** The body of [for k, v in decomposition_table.items()]. *)
Definition decomposition_body (ref_dict : gmap string unit)
    (item : PyObject * Callable) : Result (gmap string unit) :=
  let '(k, v) := item in
  from_refs ←
    (if hasattr_module v
     then m ← getattr_module v; mret (str_in "torch._refs" m)
     else mret false);
  if from_refs : bool then
    let op_packet := k in
    let op_packet :=
      match op_packet with
      (* [isinstance(op_packet, torch._ops.OpOverload)] *)
      | ObjOpOverload o => ObjOpOverloadPacket (overloadpacket o)
      | _ => op_packet
      end in
    mret (<["torch.ops." +:+ str op_packet := tt]> ref_dict)
  else mret ref_dict.

Definition unsupported_prims : list string := ["cat"; "maximum"; "transpose"].

(** The flag [unsupported] after [for prim in unsupported_prims], whose
    test is [f"{op}" in prim]: the name [op] is looked for inside [prim]. *)
Definition unsupported (op : string) : bool :=
  foldl (λ unsupported prim,
           if str_in op prim then true else unsupported)
        false unsupported_prims.

(** The body of [for op in dir(torch.ops.prims)]. *)
Definition prims_body (ref_dict : gmap string unit)
    (item : string * PyObject) : Result (gmap string unit) :=
  let '(op, attr) := item in
  if isinstance_OpOverloadPacket attr then
    if unsupported op then mret ref_dict
    else mret (<["torch.ops.prims." +:+ op := tt]> ref_dict)
  else mret ref_dict.

(** [__init__]: the dictionary handed to the constructor of the base
    class. *)
Definition __init__ (use_only_jit_ops : bool)
    (decomposition_table : DecompositionTable) (prims : OpNamespace)
  : Result (gmap string unit) :=
  if use_only_jit_ops then
    let ref_dict := jit_dict in
    mret ref_dict
  else
    (* [dict(jit_dict)]: a copy, which as a value is the same table *)
    let ref_dict := jit_dict in
    ref_dict ← for_each decomposition_body decomposition_table ref_dict;
    for_each prims_body prims ref_dict.

(** *** What the two loops contribute

    The keys each loop writes, as functions of the registries; the
    lemmas below relate them to [__init__]. *)

(** The test [hasattr(v, "__module__") and "torch._refs" in v.__module__]. *)
Definition from_refs (v : Callable) : bool :=
  match __module__ v with
  | Some m => str_in "torch._refs" m
  | None => false
  end.

(** What that test decides: the value has a [__module__] and
    "torch._refs" occurs in it. *)
Definition defined_in_refs (v : Callable) : Prop :=
  ∃ m, __module__ v = Some m ∧ occurs_in "torch._refs" m.

(** [str(op_packet)] once an overload has been replaced by its packet. *)
Definition canonical_name (k : PyObject) : string :=
  str (match k with
       | ObjOpOverload o => ObjOpOverloadPacket (overloadpacket o)
       | _ => k
       end).

(** The key written for the registry key [k]. *)
Definition table_key (k : PyObject) : string :=
  "torch.ops." +:+ canonical_name k.

Definition decomposition_keys (decomposition_table : DecompositionTable)
  : list string :=
  (λ item, table_key item.1)
    <$> filter (λ item, from_refs item.2 = true) decomposition_table.

Definition prims_keys (prims : OpNamespace) : list string :=
  (λ item, "torch.ops.prims." +:+ item.1)
    <$> filter (λ item, isinstance_OpOverloadPacket item.2 = true
                        ∧ unsupported item.1 = false) prims.

Section is_node_supported.
Context {Module_ : Type}.
(** The method of the base class, reached through [super()]. *)
Variable super_is_node_supported :
  gmap string unit → gmap string Module_ → fx.Node → bool.

Definition is_node_supported (support_dict : gmap string unit)
    (submodules : gmap string Module_) (node : fx.Node) : bool :=
  if negb (bool_decide (fx.op node ∈ CALLABLE_NODE_OPS)) then false
  else super_is_node_supported support_dict submodules node.
End is_node_supported.

End NvFuserOperatorSupport.

(** ** Sample objects

    The objects the statements below are tried on. *)

Module Samples.
Definition aten_add : OpOverloadPacket := {| packet_str := "aten.add" |}.
Definition aten_add_Tensor : OpOverload :=
  {| overloadpacket := aten_add; overload_str := "aten.add.Tensor" |}.
Definition aten_add_Scalar : OpOverload :=
  {| overloadpacket := aten_add; overload_str := "aten.add.Scalar" |}.
Definition aten_cat_default : OpOverload :=
  {| overloadpacket := {| packet_str := "aten.cat" |};
     overload_str := "aten.cat.default" |}.
Definition aten_mm_default : OpOverload :=
  {| overloadpacket := {| packet_str := "aten.mm" |};
     overload_str := "aten.mm.default" |}.

(** Implementations defined in [torch._refs], in [torch._decomp], and an
    object without [__module__]. *)
Definition ref_impl : Callable := {| __module__ := Some "torch._refs" |}.
Definition decomp_impl : Callable :=
  {| __module__ := Some "torch._decomp.decompositions" |}.
Definition no_module : Callable := {| __module__ := None |}.

(** The attribute [torch.ops.prims.<name>] when it is an operator. *)
Definition prim (name : string) : string * PyObject :=
  (name, ObjOpOverloadPacket {| packet_str := "prims." +:+ name |}).
End Samples.

(** * Properties *)

(** ** Substring test *)

Lemma prefix_true (s t : string) :
  String.prefix s t = true ↔ ∃ after, t = s +:+ after.
Proof.
  revert t. induction s as [|a s IH]; intros t.
  - destruct t; simpl; split; eauto.
  - destruct t as [|b t]; simpl.
    + split; [discriminate | intros [after H]; discriminate].
    + destruct (Ascii.ascii_dec a b) as [->|Hab].
      * rewrite IH. split; intros [after H]; exists after.
        -- by rewrite H.
        -- by injection H.
      * split; [discriminate | intros [after H]]. by injection H.
Qed.

Lemma str_in_prefix (s t : string) :
  String.prefix s t = true → str_in s t = true.
Proof. intros H. destruct t; simpl in *; by rewrite H. Qed.

Lemma str_in_cons (s : string) (c : ascii) (t : string) :
  str_in s (String c t)
  = if String.prefix s (String c t) then true else str_in s t.
Proof. reflexivity. Qed.

Lemma str_in_intro (before s after : string) :
  str_in s (before +:+ s +:+ after) = true.
Proof.
  induction before as [|c before IH].
  - apply str_in_prefix, prefix_true. simpl. eauto.
  - change (String c before +:+ s +:+ after)
      with (String c (before +:+ s +:+ after)).
    rewrite str_in_cons, IH. by destruct (String.prefix s _).
Qed.

Lemma str_in_elim (s t : string) : str_in s t = true → occurs_in s t.
Proof.
  unfold occurs_in. induction t as [|c t IH].
  - destruct s; [by exists "", "" | discriminate].
  - rewrite str_in_cons. destruct (String.prefix s (String c t)) eqn:Hp.
    + apply prefix_true in Hp as [after H]. intros _. by exists "", after.
    + intros (before & after & ->)%IH. by exists (String c before), after.
Qed.

Lemma str_in_true (s t : string) : str_in s t = true ↔ occurs_in s t.
Proof.
  split; [apply str_in_elim | intros (before & after & ->)].
  apply str_in_intro.
Qed.

Lemma str_in_false (s t : string) : str_in s t = false ↔ ¬ occurs_in s t.
Proof.
  rewrite <- str_in_true. destruct (str_in s t); split; congruence.
Qed.

Lemma append_cons (c : ascii) (s t : string) :
  String c s +:+ t = String c (s +:+ t).
Proof. reflexivity. Qed.

Lemma append_empty_r (s : string) : s +:+ "" = s.
Proof.
  induction s as [|c s IH]; [done|]. by rewrite append_cons, IH.
Qed.

Lemma occurs_in_refl (s : string) : occurs_in s s.
Proof.
  exists "", "". change ("" +:+ s +:+ "") with (s +:+ "").
  by rewrite append_empty_r.
Qed.

Lemma append_inj_l (p s t : string) : p +:+ s = p +:+ t → s = t.
Proof.
  induction p as [|c p IH]; [done|].
  rewrite !append_cons. intros [= H]. auto.
Qed.

(** ** Dictionaries with [None] values *)

Section dict_facts.
Implicit Types (d : gmap string unit) (key : string) (keys : list string).

Lemma unit_dict_eq d1 d2 : dom d1 = dom d2 → d1 = d2.
Proof.
  intros Hdom. apply map_eq. intros key.
  destruct (d1 !! key) as [[]|] eqn:H1, (d2 !! key) as [[]|] eqn:H2; try done.
  - apply not_elem_of_dom in H2. rewrite <- Hdom in H2.
    apply not_elem_of_dom in H2. congruence.
  - apply not_elem_of_dom in H1. rewrite Hdom in H1.
    apply not_elem_of_dom in H1. congruence.
Qed.

Lemma contains_true d key : contains d key = true ↔ key ∈ dom d.
Proof.
  unfold contains. rewrite elem_of_dom.
  destruct (d !! key); split; done.
Qed.

Lemma dom_add_keys d keys : dom (add_keys d keys) = dom d ∪ list_to_set keys.
Proof.
  unfold add_keys. revert d. induction keys as [|k keys IH]; intros d; simpl.
  - by rewrite (right_id_L ∅ (∪)).
  - rewrite IH, dom_insert_L.
    by rewrite (comm_L (∪) {[k]}), <- (assoc_L (∪)).
Qed.

Lemma dom_dict_display keys : dom (dict_display keys) = list_to_set keys.
Proof.
  change (dict_display keys) with (add_keys ∅ keys).
  by rewrite dom_add_keys, dom_empty_L, (left_id_L ∅ (∪)).
Qed.

Lemma dom_same d : dom d ⊆ dom d.
Proof. intros key Hkey. exact Hkey. Qed.

Lemma dom_insert_extends d key : dom d ⊆ dom (<[key:=tt]> d).
Proof. rewrite dom_insert_L. apply union_subseteq_r. Qed.

Lemma size_insert_le d key : (size (<[key:=tt]> d) ≤ S (size d))%nat.
Proof.
  destruct (d !! key) as [[]|] eqn:H.
  - rewrite insert_id by done. lia.
  - rewrite map_size_insert_None by done. lia.
Qed.
End dict_facts.

(** ** Loops whose body never raises *)

Lemma for_each_cons {A S : Type} (body : S → A → Result S) (x : A)
    (xs : list A) (s : S) :
  for_each body (x :: xs) s = body s x ≫= for_each body xs.
Proof. reflexivity. Qed.

Lemma bind_Ok {A B : Type} (a : A) (f : A → Result B) : Ok a ≫= f = f a.
Proof. reflexivity. Qed.

(** ** The constructor, loop by loop *)

Import NvFuserOperatorSupport.

Section init_facts.
Implicit Types (d : gmap string unit) (key op : string) (k : PyObject)
  (v : Callable) (reg : DecompositionTable) (prims : OpNamespace).

(** The guard [hasattr] keeps the attribute read from raising. *)
Lemma decomposition_body_eq d k v :
  decomposition_body d (k, v)
  = Ok (if from_refs v then <[table_key k:=tt]> d else d).
Proof.
  unfold decomposition_body, from_refs, hasattr_module, getattr_module,
    table_key, canonical_name.
  destruct (__module__ v) as [m|]; simpl; [|done].
  by destruct (str_in "torch._refs" m), k.
Qed.

Lemma from_refs_true v : from_refs v = true ↔ defined_in_refs v.
Proof.
  unfold from_refs, defined_in_refs. destruct (__module__ v) as [m|].
  - rewrite str_in_true. split; [eauto | by intros (? & [= <-] & ?)].
  - split; [done | by intros (? & ? & ?)].
Qed.

Lemma from_refs_false v : from_refs v = false ↔ ¬ defined_in_refs v.
Proof.
  rewrite <- from_refs_true. destruct (from_refs v); split; congruence.
Qed.

Lemma prims_body_eq d op (attr : PyObject) :
  prims_body d (op, attr)
  = Ok (if isinstance_OpOverloadPacket attr
        then if unsupported op then d else <["torch.ops.prims." +:+ op:=tt]> d
        else d).
Proof.
  unfold prims_body.
  by destruct (isinstance_OpOverloadPacket attr), (unsupported op).
Qed.

Lemma decomposition_loop reg d :
  for_each decomposition_body reg d = Ok (add_keys d (decomposition_keys reg)).
Proof.
  revert d. induction reg as [|[k v] reg IH]; intros d; [done|].
  rewrite for_each_cons, decomposition_body_eq, bind_Ok, IH. f_equal.
  unfold decomposition_keys. rewrite filter_cons. simpl.
  destruct (from_refs v) eqn:Hv.
  - by rewrite decide_True by done.
  - by rewrite decide_False by done.
Qed.

Lemma prims_loop prims d :
  for_each prims_body prims d = Ok (add_keys d (prims_keys prims)).
Proof.
  revert d. induction prims as [|[op attr] prims IH]; intros d; [done|].
  rewrite for_each_cons, prims_body_eq, bind_Ok, IH. f_equal.
  unfold prims_keys. rewrite filter_cons. simpl.
  destruct (isinstance_OpOverloadPacket attr) eqn:Ha,
    (unsupported op) eqn:Hu.
  - rewrite decide_False; [done | by intros []].
  - by rewrite decide_True by done.
  - rewrite decide_False; [done | by intros []].
  - rewrite decide_False; [done | by intros []].
Qed.

Lemma init_legacy reg prims : __init__ true reg prims = Ok jit_dict.
Proof. reflexivity. Qed.

Lemma init_full reg prims :
  __init__ false reg prims
  = Ok (add_keys (add_keys jit_dict (decomposition_keys reg))
          (prims_keys prims)).
Proof.
  unfold __init__. rewrite decomposition_loop, bind_Ok. apply prims_loop.
Qed.

Lemma elem_of_decomposition_keys key reg :
  key ∈ decomposition_keys reg
  ↔ ∃ k v, (k, v) ∈ reg ∧ from_refs v = true ∧ key = table_key k.
Proof.
  unfold decomposition_keys. rewrite list_elem_of_fmap. split.
  - intros ([k v] & -> & [Hv Hin]%list_elem_of_filter). eauto.
  - intros (k & v & Hin & Hv & ->). exists (k, v).
    by rewrite list_elem_of_filter.
Qed.

Lemma elem_of_prims_keys key prims :
  key ∈ prims_keys prims
  ↔ ∃ op attr, (op, attr) ∈ prims ∧ isinstance_OpOverloadPacket attr = true
               ∧ unsupported op = false ∧ key = "torch.ops.prims." +:+ op.
Proof.
  unfold prims_keys. rewrite list_elem_of_fmap. split.
  - intros ([op attr] & -> & [[Ha Hu] Hin]%list_elem_of_filter).
    exists op, attr. eauto.
  - intros (op & attr & Hin & Ha & Hu & ->). exists (op, attr).
    by rewrite list_elem_of_filter.
Qed.

(** Membership in the table of the full mode. *)
Lemma elem_of_init_full key reg prims :
  key ∈ dom (add_keys (add_keys jit_dict (decomposition_keys reg))
               (prims_keys prims))
  ↔ key ∈ jit_keys ∨ key ∈ decomposition_keys reg ∨ key ∈ prims_keys prims.
Proof.
  rewrite !dom_add_keys. unfold jit_dict. rewrite dom_dict_display.
  rewrite !elem_of_union, !elem_of_list_to_set. tauto.
Qed.

(** The flag is set exactly when [op] occurs inside one of the listed
    names. *)
Lemma unsupported_unfold op :
  unsupported op
  = if str_in op "transpose" then true
    else if str_in op "maximum" then true
    else if str_in op "cat" then true else false.
Proof. reflexivity. Qed.

Lemma unsupported_true op :
  unsupported op = true
  ↔ ∃ prim, prim ∈ unsupported_prims ∧ occurs_in op prim.
Proof.
  rewrite unsupported_unfold. unfold unsupported_prims. split.
  - destruct (str_in op "transpose") eqn:H3.
    { exists "transpose". rewrite <- str_in_true, !elem_of_cons. tauto. }
    destruct (str_in op "maximum") eqn:H2.
    { exists "maximum". rewrite <- str_in_true, !elem_of_cons. tauto. }
    destruct (str_in op "cat") eqn:H1; [|done].
    exists "cat". rewrite <- str_in_true, !elem_of_cons. tauto.
  - intros (prim & Hin & Hocc%str_in_true).
    rewrite !elem_of_cons, elem_of_nil in Hin.
    destruct Hin as [->|[->|[->|[]]]]; rewrite Hocc.
    + by destruct (str_in op "transpose"), (str_in op "maximum").
    + by destruct (str_in op "transpose").
    + done.
Qed.

Lemma unsupported_false op :
  unsupported op = false
  ↔ ∀ prim, prim ∈ unsupported_prims → ¬ occurs_in op prim.
Proof.
  split.
  - intros H prim Hin Hocc.
    assert (unsupported op = true) by (apply unsupported_true; eauto).
    congruence.
  - intros H. destruct (unsupported op) eqn:Hu; [|done].
    apply unsupported_true in Hu as (prim & Hin & Hocc). by destruct (H prim).
Qed.

(** No key of the TorchScript list lies in the [prims] namespace. *)
Lemma jit_keys_not_prims op : "torch.ops.prims." +:+ op ∉ jit_keys.
Proof.
  assert (forallb (λ key, negb (String.prefix "torch.ops.prims." key))
            jit_keys = true) as Hall by (vm_compute; reflexivity).
  intros Hin%list_elem_of_In.
  rewrite forallb_forall in Hall. specialize (Hall _ Hin).
  assert (String.prefix "torch.ops.prims." ("torch.ops.prims." +:+ op) = true)
    as Hp by (apply prefix_true; eauto).
  rewrite Hp in Hall. discriminate.
Qed.
End init_facts.

(** ** The table in the two modes *)

(** C3: with [use_only_jit_ops] set, the constructor returns the
    TorchScript table itself, whose keys are exactly those of the display
    in the source, whatever the decomposition table and the [prims]
    namespace hold: the result is the same for any other pair of
    registries. *)
Theorem legacy_mode_returns_seed (reg : DecompositionTable) (prims : OpNamespace) :
  __init__ true reg prims = Ok jit_dict
  ∧ dom jit_dict = list_to_set jit_keys
  ∧ ∀ (reg' : DecompositionTable) (prims' : OpNamespace),
      __init__ true reg' prims' = __init__ true reg prims.
Proof.
  split; [apply init_legacy|]. split; [apply dom_dict_display|].
  intros reg' prims'. by rewrite !init_legacy.
Qed.

(** C5: every key of the TorchScript table is a key of the table built in
    either mode, for any decomposition table and [prims] namespace; each
    loop body returns a table that extends the one it was given, so the
    result contains the whole TorchScript table. *)
Theorem legacy_entries_kept (op : string) :
  op ∈ dom jit_dict →
  ∀ (use_only_jit_ops : bool) (reg : DecompositionTable) (prims : OpNamespace),
    (∃ d, __init__ use_only_jit_ops reg prims = Ok d
          ∧ op ∈ dom d ∧ dom jit_dict ⊆ dom d)
    ∧ (∀ d0 item, ∃ d1, decomposition_body d0 item = Ok d1 ∧ dom d0 ⊆ dom d1)
    ∧ (∀ d0 item, ∃ d1, prims_body d0 item = Ok d1 ∧ dom d0 ⊆ dom d1).
Proof.
  intros Hop flag reg prims. split; [|split].
  - destruct flag.
    + exists jit_dict. split; [apply init_legacy|]. split; [exact Hop|].
      intros key Hkey. exact Hkey.
    + eexists. split; [apply init_full|].
      rewrite !dom_add_keys. split.
      * rewrite !elem_of_union. tauto.
      * intros key Hkey. rewrite !elem_of_union. tauto.
  - intros d0 [k v]. rewrite decomposition_body_eq. eexists.
    split; [reflexivity|].
    destruct (from_refs v); [apply dom_insert_extends | apply dom_same].
  - intros d0 [name attr]. rewrite prims_body_eq. eexists.
    split; [reflexivity|].
    destruct (isinstance_OpOverloadPacket attr), (unsupported name);
      (apply dom_insert_extends || apply dom_same).
Qed.

Lemma legacy_entries_kept_witness :
  "torch.ops.aten.add" ∈ dom jit_dict
  ∧ ∃ d, __init__ false
           [(ObjOpOverload {| overloadpacket := {| packet_str := "aten.mul" |};
                              overload_str := "aten.mul.Tensor" |},
             {| __module__ := Some "torch._refs" |})]
           [("add", ObjOpOverloadPacket {| packet_str := "prims.add" |})] = Ok d
         ∧ "torch.ops.aten.add" ∈ dom d ∧ dom jit_dict ⊆ dom d.
Proof.
  assert ("torch.ops.aten.add" ∈ dom jit_dict) as Hop.
  { apply contains_true. vm_compute. reflexivity. }
  split; [exact Hop|].
  exact (proj1 (legacy_entries_kept "torch.ops.aten.add" Hop false _ _)).
Defined.

(** ** The predicate on nodes *)

(** C4: a node whose opcode is not one of the callable ones
    ([call_function], [call_method], [call_module]) is reported
    unsupported, whatever the table holds, whatever the name of the node,
    and whatever the method of the base class would answer. *)
Theorem non_callable_node_unsupported {Module_ : Type}
    (super_is_node_supported : gmap string unit → gmap string Module_ → fx.Node → bool)
    (support_dict : gmap string unit) (submodules : gmap string Module_)
    (node : fx.Node) :
  fx.op node ∉ CALLABLE_NODE_OPS →
  is_node_supported super_is_node_supported support_dict submodules node = false.
Proof.
  intros Hop. unfold is_node_supported.
  by rewrite bool_decide_eq_false_2.
Qed.

Lemma callable_node_ops_elem (opcode : string) :
  opcode ∈ CALLABLE_NODE_OPS
  ↔ opcode = "call_module" ∨ opcode = "call_function" ∨ opcode = "call_method".
Proof.
  unfold CALLABLE_NODE_OPS. rewrite !elem_of_union, !elem_of_singleton. tauto.
Qed.

Lemma non_callable_node_unsupported_witness :
  ("placeholder" ∉ CALLABLE_NODE_OPS)
  ∧ is_node_supported (Module_:=unit) (λ _ _ _, true) jit_dict ∅
      {| fx.op := "placeholder"; fx.qualified_name := "torch.ops.aten.add" |}
    = false.
Proof.
  assert ("placeholder" ∉ CALLABLE_NODE_OPS) as Hop.
  { rewrite callable_node_ops_elem. intros [H|[H|H]]; discriminate H. }
  split; [exact Hop|].
  exact (non_callable_node_unsupported (λ _ _ _, true) jit_dict ∅
           {| fx.op := "placeholder"; fx.qualified_name := "torch.ops.aten.add" |}
           Hop).
Defined.

(** C10: "getattr" and "_operator.getitem" are keys of the TorchScript
    table, so in either mode a [call_function] node with one of these
    names is reported supported (with the method of the base class as the
    spec describes it), while a [get_attr] node is rejected whatever its
    name. *)
Theorem builtin_entries_supported {Module_ : Type} (use_only_jit_ops : bool)
    (reg : DecompositionTable) (prims : OpNamespace)
    (submodules : gmap string Module_) :
  "getattr" ∈ jit_keys ∧ "_operator.getitem" ∈ jit_keys
  ∧ ∃ d, __init__ use_only_jit_ops reg prims = Ok d
      ∧ is_node_supported OperatorSupport_is_node_supported d submodules
          {| fx.op := "call_function"; fx.qualified_name := "getattr" |} = true
      ∧ is_node_supported OperatorSupport_is_node_supported d submodules
          {| fx.op := "call_function"; fx.qualified_name := "_operator.getitem" |}
        = true
      ∧ ∀ name, is_node_supported OperatorSupport_is_node_supported d submodules
                  {| fx.op := "get_attr"; fx.qualified_name := name |} = false.
Proof.
  assert ("getattr" ∈ jit_keys) as H1
    by (apply (bool_decide_unpack _); vm_compute; exact I).
  assert ("_operator.getitem" ∈ jit_keys) as H2
    by (apply (bool_decide_unpack _); vm_compute; exact I).
  split; [exact H1|]. split; [exact H2|].
  assert (∃ d, __init__ use_only_jit_ops reg prims = Ok d
               ∧ dom jit_dict ⊆ dom d) as (d & Hd & Hsub).
  { destruct use_only_jit_ops.
    - exists jit_dict. split; [apply init_legacy|].
      intros key Hkey. exact Hkey.
    - eexists. split; [apply init_full|]. rewrite !dom_add_keys.
      intros key Hkey. rewrite !elem_of_union. tauto. }
  assert ("call_function" ∈ CALLABLE_NODE_OPS) as Hcall
    by (rewrite callable_node_ops_elem; tauto).
  exists d. split; [done|].
  unfold is_node_supported, OperatorSupport_is_node_supported. simpl.
  rewrite (bool_decide_eq_true_2 _ Hcall). simpl.
  rewrite !contains_true. split; [|split].
  - apply Hsub. unfold jit_dict. rewrite dom_dict_display.
    by apply elem_of_list_to_set.
  - apply Hsub. unfold jit_dict. rewrite dom_dict_display.
    by apply elem_of_list_to_set.
  - intros name. rewrite bool_decide_eq_false_2; [done|].
    rewrite callable_node_ops_elem. intros [H|[H|H]]; discriminate H.
Qed.

(** ** A run of the constructor *)

(** One overload from "torch._refs", one decomposition from elsewhere,
    and a [prims] namespace with the operators "cat" and "add" and a
    non-operator attribute: the table is the TorchScript one with
    "torch.ops.aten.mm" and "torch.ops.prims.add" added. *)
Example full_mode_run :
  ∃ d, __init__ false
         [(ObjOpOverload Samples.aten_mm_default, Samples.ref_impl);
          (ObjOpOverload Samples.aten_cat_default, Samples.decomp_impl)]
         [("__doc__", ObjOther "None"); Samples.prim "add"; Samples.prim "cat"]
       = Ok d
     ∧ d = <["torch.ops.prims.add":=tt]> (<["torch.ops.aten.mm":=tt]> jit_dict)
     ∧ contains d "torch.ops.prims.cat" = false
     ∧ contains d "torch.ops.aten.cat" = false
     ∧ size d = 108.
Proof.
  eexists. split; [apply init_full|]. split; [reflexivity|].
  vm_compute. done.
Qed.

(** ** The loop over the decomposition table *)

(** Dropping an entry that the loop skips changes nothing. *)
Lemma decomposition_keys_skip (reg1 reg2 : DecompositionTable) (k : PyObject)
    (v : Callable) :
  from_refs v = false →
  decomposition_keys (reg1 ++ (k, v) :: reg2) = decomposition_keys (reg1 ++ reg2).
Proof.
  intros Hv. unfold decomposition_keys.
  rewrite !filter_app, filter_cons. simpl.
  rewrite decide_False; [done | congruence].
Qed.

Lemma init_skip (use_only_jit_ops : bool) (reg1 reg2 : DecompositionTable)
    (k : PyObject) (v : Callable) (prims : OpNamespace) :
  from_refs v = false →
  __init__ use_only_jit_ops (reg1 ++ (k, v) :: reg2) prims
  = __init__ use_only_jit_ops (reg1 ++ reg2) prims.
Proof.
  intros Hv. destruct use_only_jit_ops; [by rewrite !init_legacy|].
  by rewrite !init_full, decomposition_keys_skip.
Qed.

Lemma init_total (use_only_jit_ops : bool) (reg : DecompositionTable)
    (prims : OpNamespace) :
  ∃ d, __init__ use_only_jit_ops reg prims = Ok d.
Proof.
  destruct use_only_jit_ops; eexists; [apply init_legacy | apply init_full].
Qed.

(** C2: for an entry [(k, v)] of the decomposition table, in the full
    mode: when "torch._refs" occurs in [v.__module__], the loop body writes
    the key of [k] (its overload packet when [k] is an overload, rendered
    under "torch.ops."), and that key is in the final table; otherwise the
    body leaves the table as it was, and the final table is the one built
    from the registry without that entry. *)
Theorem decomposition_entry_inserted_iff_refs (reg1 reg2 : DecompositionTable)
    (prims : OpNamespace) (k : PyObject) (v : Callable) :
  ∃ d, __init__ false (reg1 ++ (k, v) :: reg2) prims = Ok d
    ∧ (defined_in_refs v →
         (∀ d0, decomposition_body d0 (k, v) = Ok (<[table_key k:=tt]> d0))
         ∧ table_key k ∈ dom d)
    ∧ (¬ defined_in_refs v →
         (∀ d0, decomposition_body d0 (k, v) = Ok d0)
         ∧ __init__ false (reg1 ++ reg2) prims = Ok d).
Proof.
  eexists. split; [apply init_full|]. split.
  - intros Hv%from_refs_true. split.
    + intros d0. by rewrite decomposition_body_eq, Hv.
    + apply elem_of_init_full. right; left.
      apply elem_of_decomposition_keys. exists k, v.
      rewrite elem_of_app, elem_of_cons. tauto.
  - intros Hv%from_refs_false. split.
    + intros d0. by rewrite decomposition_body_eq, Hv.
    + by rewrite init_full, decomposition_keys_skip.
Qed.

(** C6: two overloads of one packet, both with implementations from
    "torch._refs", are written under the same key, the name of the packet
    under "torch.ops."; the second write leaves the table as the first
    made it, so the two entries add one key. *)
Theorem overloads_share_one_key (o1 o2 : OpOverload) (v1 v2 : Callable)
    (d : gmap string unit) :
  overloadpacket o1 = overloadpacket o2 →
  defined_in_refs v1 → defined_in_refs v2 →
  table_key (ObjOpOverload o1) = table_key (ObjOpOverload o2)
  ∧ table_key (ObjOpOverload o1) = "torch.ops." +:+ packet_str (overloadpacket o1)
  ∧ ∃ d1, decomposition_body d (ObjOpOverload o1, v1) = Ok d1
        ∧ decomposition_body d1 (ObjOpOverload o2, v2) = Ok d1
        ∧ for_each decomposition_body
            [(ObjOpOverload o1, v1); (ObjOpOverload o2, v2)] d = Ok d1
        ∧ d1 = <[table_key (ObjOpOverload o1):=tt]> d
        ∧ (size d1 ≤ S (size d))%nat.
Proof.
  intros Hpacket Hv1%from_refs_true Hv2%from_refs_true.
  assert (table_key (ObjOpOverload o1) = table_key (ObjOpOverload o2)) as Hkey
    by (unfold table_key, canonical_name; by rewrite Hpacket).
  split; [exact Hkey|]. split; [reflexivity|].
  exists (<[table_key (ObjOpOverload o1):=tt]> d).
  assert (decomposition_body (<[table_key (ObjOpOverload o1):=tt]> d)
            (ObjOpOverload o2, v2)
          = Ok (<[table_key (ObjOpOverload o1):=tt]> d)) as Hsecond.
  { rewrite decomposition_body_eq, Hv2, <- Hkey. by rewrite insert_insert_eq. }
  split; [by rewrite decomposition_body_eq, Hv1|].
  split; [exact Hsecond|].
  split.
  - rewrite for_each_cons, decomposition_body_eq, Hv1, bind_Ok.
    by rewrite for_each_cons, Hsecond, bind_Ok.
  - split; [reflexivity | apply size_insert_le].
Qed.

Lemma ref_impl_defined_in_refs : defined_in_refs Samples.ref_impl.
Proof. exists "torch._refs". split; [reflexivity | apply occurs_in_refl]. Qed.

Lemma decomp_impl_not_in_refs : ¬ defined_in_refs Samples.decomp_impl.
Proof. apply from_refs_false. vm_compute. reflexivity. Qed.

Lemma overloads_share_one_key_witness :
  overloadpacket Samples.aten_add_Tensor = overloadpacket Samples.aten_add_Scalar
  ∧ Samples.aten_add_Tensor ≠ Samples.aten_add_Scalar
  ∧ table_key (ObjOpOverload Samples.aten_add_Tensor)
    = table_key (ObjOpOverload Samples.aten_add_Scalar)
  ∧ table_key (ObjOpOverload Samples.aten_add_Tensor) = "torch.ops.aten.add"
  ∧ ∃ d1, for_each decomposition_body
            [(ObjOpOverload Samples.aten_add_Tensor, Samples.ref_impl);
             (ObjOpOverload Samples.aten_add_Scalar, Samples.ref_impl)] ∅
          = Ok d1
        ∧ d1 = <["torch.ops.aten.add":=tt]> ∅.
Proof.
  destruct (overloads_share_one_key Samples.aten_add_Tensor
              Samples.aten_add_Scalar Samples.ref_impl Samples.ref_impl ∅
              eq_refl ref_impl_defined_in_refs ref_impl_defined_in_refs)
    as (Hkey & Hname & d1 & _ & _ & Hloop & Hd1 & _).
  split; [reflexivity|]. split; [discriminate|].
  split; [exact Hkey|]. split; [exact Hname|].
  exists d1. split; [exact Hloop | exact Hd1].
Defined.

(** C8: an entry whose value has no [__module__] attribute is skipped
    without an exception: the body returns the table unchanged, the
    constructor returns a table, and that table is the one obtained
    without the entry and the one obtained with a value in its place whose
    [__module__] does not mention "torch._refs". *)
Theorem entry_without_module_skipped (k : PyObject) (v v' : Callable)
    (use_only_jit_ops : bool) (reg1 reg2 : DecompositionTable)
    (prims : OpNamespace) :
  __module__ v = None → ¬ defined_in_refs v' →
  (∀ d0, decomposition_body d0 (k, v) = Ok d0)
  ∧ ∃ d, __init__ use_only_jit_ops (reg1 ++ (k, v) :: reg2) prims = Ok d
       ∧ __init__ use_only_jit_ops (reg1 ++ reg2) prims = Ok d
       ∧ __init__ use_only_jit_ops (reg1 ++ (k, v') :: reg2) prims = Ok d.
Proof.
  intros Hnone Hv'%from_refs_false.
  assert (from_refs v = false) as Hv by (unfold from_refs; by rewrite Hnone).
  split.
  - intros d0. by rewrite decomposition_body_eq, Hv.
  - destruct (init_total use_only_jit_ops (reg1 ++ reg2) prims) as [d Hd].
    exists d. by rewrite !init_skip.
Qed.

Lemma entry_without_module_skipped_witness :
  __module__ Samples.no_module = None
  ∧ ¬ defined_in_refs Samples.decomp_impl
  ∧ ∃ d, __init__ false
           [(ObjOpOverload Samples.aten_mm_default, Samples.no_module);
            (ObjOpOverload Samples.aten_add_Tensor, Samples.ref_impl)] [] = Ok d
       ∧ __init__ false
           [(ObjOpOverload Samples.aten_add_Tensor, Samples.ref_impl)] [] = Ok d
       ∧ __init__ false
           [(ObjOpOverload Samples.aten_mm_default, Samples.decomp_impl);
            (ObjOpOverload Samples.aten_add_Tensor, Samples.ref_impl)] [] = Ok d.
Proof.
  split; [reflexivity|]. split; [exact decomp_impl_not_in_refs|].
  exact (proj2 (entry_without_module_skipped
                  (ObjOpOverload Samples.aten_mm_default)
                  Samples.no_module Samples.decomp_impl false []
                  [(ObjOpOverload Samples.aten_add_Tensor, Samples.ref_impl)] []
                  eq_refl decomp_impl_not_in_refs)).
Defined.

(** C9: the list [unsupported_prims] plays no part in the loop over the
    decomposition table: an entry from "torch._refs" whose name contains
    one of the listed names, or occurs inside one, has its key in the
    table of the full mode all the same. *)
Theorem denylist_spares_decompositions (reg : DecompositionTable)
    (prims : OpNamespace) (k : PyObject) (v : Callable) :
  (k, v) ∈ reg → defined_in_refs v →
  (∃ prim, prim ∈ unsupported_prims
           ∧ (occurs_in prim (canonical_name k) ∨ occurs_in (canonical_name k) prim)) →
  ∃ d, __init__ false reg prims = Ok d
    ∧ table_key k = "torch.ops." +:+ canonical_name k
    ∧ table_key k ∈ dom d.
Proof.
  intros Hin Hv%from_refs_true _. eexists. split; [apply init_full|].
  split; [reflexivity|].
  apply elem_of_init_full. right; left.
  apply elem_of_decomposition_keys. eauto.
Qed.

Lemma denylist_spares_decompositions_witness :
  ((ObjOpOverload Samples.aten_cat_default, Samples.ref_impl)
     ∈ [(ObjOpOverload Samples.aten_cat_default, Samples.ref_impl)])
  ∧ defined_in_refs Samples.ref_impl
  ∧ occurs_in "cat" (canonical_name (ObjOpOverload Samples.aten_cat_default))
  ∧ ∃ d, __init__ false
           [(ObjOpOverload Samples.aten_cat_default, Samples.ref_impl)]
           [Samples.prim "cat"] = Ok d
       ∧ table_key (ObjOpOverload Samples.aten_cat_default)
         = "torch.ops." +:+ "aten.cat"
       ∧ "torch.ops.aten.cat" ∈ dom d.
Proof.
  assert ((ObjOpOverload Samples.aten_cat_default, Samples.ref_impl)
            ∈ [(ObjOpOverload Samples.aten_cat_default, Samples.ref_impl)])
    as Hin by (apply elem_of_cons; left; reflexivity).
  assert (occurs_in "cat" (canonical_name (ObjOpOverload Samples.aten_cat_default)))
    as Hocc by (by exists "aten.", "").
  assert ("cat" ∈ unsupported_prims) as Hcat
    by (apply elem_of_cons; left; reflexivity).
  split; [exact Hin|]. split; [exact ref_impl_defined_in_refs|].
  split; [exact Hocc|].
  exact (denylist_spares_decompositions
           [(ObjOpOverload Samples.aten_cat_default, Samples.ref_impl)]
           [Samples.prim "cat"] (ObjOpOverload Samples.aten_cat_default)
           Samples.ref_impl Hin ref_impl_defined_in_refs
           (ex_intro _ "cat" (conj Hcat (or_introl Hocc)))).
Defined.

(** ** The table as a function of the registries *)

(** C7: the table is determined by the flag and by what the decomposition
    table and the [prims] namespace contain.  Two constructions from
    snapshots with the same entries (identical snapshots in particular,
    and also the same entries met in another order) both return a table,
    and the same one. *)
Theorem init_deterministic (use_only_jit_ops : bool)
    (reg1 reg2 : DecompositionTable) (prims1 prims2 : OpNamespace) :
  (∀ item, item ∈ reg1 ↔ item ∈ reg2) →
  (∀ item, item ∈ prims1 ↔ item ∈ prims2) →
  ∃ d1 d2, __init__ use_only_jit_ops reg1 prims1 = Ok d1
         ∧ __init__ use_only_jit_ops reg2 prims2 = Ok d2
         ∧ dom d1 = dom d2 ∧ d1 = d2.
Proof.
  intros Hreg Hprims. destruct use_only_jit_ops.
  - exists jit_dict, jit_dict. by rewrite !init_legacy.
  - do 2 eexists. split; [apply init_full|]. split; [apply init_full|].
    assert (dom (add_keys (add_keys jit_dict (decomposition_keys reg1))
                   (prims_keys prims1))
            = dom (add_keys (add_keys jit_dict (decomposition_keys reg2))
                     (prims_keys prims2))) as Hdom.
    { apply set_eq. intros key. rewrite !elem_of_init_full.
      rewrite !elem_of_decomposition_keys, !elem_of_prims_keys.
      setoid_rewrite Hreg. setoid_rewrite Hprims. reflexivity. }
    split; [exact Hdom | by apply unit_dict_eq].
Qed.

Lemma init_deterministic_witness :
  let a := (ObjOpOverload Samples.aten_add_Tensor, Samples.ref_impl) in
  let b := (ObjOpOverload Samples.aten_cat_default, Samples.ref_impl) in
  (∀ item, item ∈ [a; b] ↔ item ∈ [b; a])
  ∧ (∀ item, item ∈ [Samples.prim "add"; Samples.prim "cat"]
             ↔ item ∈ [Samples.prim "cat"; Samples.prim "add"])
  ∧ ∃ d1 d2,
      __init__ false [a; b] [Samples.prim "add"; Samples.prim "cat"] = Ok d1
      ∧ __init__ false [b; a] [Samples.prim "cat"; Samples.prim "add"] = Ok d2
      ∧ dom d1 = dom d2 ∧ d1 = d2.
Proof.
  intros a b.
  assert (∀ item, item ∈ [a; b] ↔ item ∈ [b; a]) as Hreg
    by (intros item; rewrite !elem_of_cons; tauto).
  assert (∀ item, item ∈ [Samples.prim "add"; Samples.prim "cat"]
                  ↔ item ∈ [Samples.prim "cat"; Samples.prim "add"]) as Hprims
    by (intros item; rewrite !elem_of_cons; tauto).
  split; [exact Hreg|]. split; [exact Hprims|].
  exact (init_deterministic false [a; b] [b; a] _ _ Hreg Hprims).
Defined.

(** ** The loop over [torch.ops.prims] *)

(** C1 does not hold as stated.  The loop tests [op in prim], whether the
    name of the primitive occurs inside a listed name, not whether a
    listed name occurs inside the name of the primitive: a primitive
    "catalog" contains "cat" and its qualified name is in the table, and a
    primitive "max" contains none of the listed names and its qualified
    name is not in the table. *)
Lemma prims_denylist_counterexample :
  (("cat" ∈ unsupported_prims) ∧ occurs_in "cat" "catalog"
   ∧ ∃ d, __init__ false [] [Samples.prim "catalog"] = Ok d
        ∧ "torch.ops.prims.catalog" ∈ dom d)
  ∧ ((∀ prim, prim ∈ unsupported_prims → ¬ occurs_in prim "max")
     ∧ ∃ d, __init__ false [] [Samples.prim "max"] = Ok d
          ∧ "torch.ops.prims.max" ∉ dom d).
Proof.
  split.
  - split; [unfold unsupported_prims; rewrite !elem_of_cons; tauto|].
    split; [by exists "", "alog"|].
    eexists. split; [apply init_full|].
    apply contains_true. vm_compute. reflexivity.
  - split.
    + intros prim Hin. apply str_in_false.
      unfold unsupported_prims in Hin.
      rewrite !elem_of_cons, elem_of_nil in Hin.
      destruct Hin as [->|[->|[->|[]]]]; vm_compute; reflexivity.
    + eexists. split; [apply init_full|].
      rewrite <- contains_true. vm_compute. discriminate.
Qed.

(** C1, amended.  For an operator [op] of the [prims] namespace, in the
    full mode, "torch.ops.prims.<op>" is written by the loop if and only
    if [op] does not occur inside any of the listed names "cat", "maximum",
    "transpose".  When [op] occurs inside a listed name (as each listed
    name itself does) the loop body leaves the table as it was, and the
    key is in the final table only if the loop over the decomposition
    table wrote that very key; when [op] occurs inside none of them,
    which covers a name that merely contains one, the body writes the key
    and the key is in the final table. *)
Theorem prims_denylist_amended (reg : DecompositionTable) (prims : OpNamespace)
    (op : string) (attr : PyObject) :
  (op, attr) ∈ prims → isinstance_OpOverloadPacket attr = true →
  ∃ d, __init__ false reg prims = Ok d
    ∧ ((∃ prim, prim ∈ unsupported_prims ∧ occurs_in op prim) →
         (∀ d0, prims_body d0 (op, attr) = Ok d0)
         ∧ ("torch.ops.prims." +:+ op ∈ dom d
            ↔ ∃ k v, (k, v) ∈ reg ∧ defined_in_refs v
                     ∧ table_key k = "torch.ops.prims." +:+ op))
    ∧ ((∀ prim, prim ∈ unsupported_prims → ¬ occurs_in op prim) →
         (∀ d0, prims_body d0 (op, attr)
                = Ok (<["torch.ops.prims." +:+ op:=tt]> d0))
         ∧ "torch.ops.prims." +:+ op ∈ dom d).
Proof.
  intros Hin Hattr. eexists. split; [apply init_full|]. split.
  - intros Hu%unsupported_true.
    split; [intros d0; by rewrite prims_body_eq, Hattr, Hu|].
    rewrite elem_of_init_full, elem_of_decomposition_keys, elem_of_prims_keys.
    split.
    + intros [Hjit|[(k & v & Hkv & Hv%from_refs_true & Hkey)|Hprims]].
      * by apply jit_keys_not_prims in Hjit.
      * eauto 6.
      * destruct Hprims as (op' & attr' & _ & _ & Hu' & Heq).
        apply append_inj_l in Heq as ->. congruence.
    + intros (k & v & Hkv & Hv%from_refs_true & Hkey). right; left. eauto 6.
  - intros Hu%unsupported_false.
    split; [intros d0; by rewrite prims_body_eq, Hattr, Hu|].
    apply elem_of_init_full. right; right.
    apply elem_of_prims_keys. eauto 6.
Qed.

Lemma prims_denylist_amended_witness :
  (Samples.prim "cat" ∈ [Samples.prim "cat"; Samples.prim "catalog"])
  ∧ isinstance_OpOverloadPacket (Samples.prim "cat").2 = true
  ∧ ∃ d, __init__ false [(ObjOpOverload Samples.aten_cat_default, Samples.ref_impl)]
           [Samples.prim "cat"; Samples.prim "catalog"] = Ok d
       ∧ ((∃ prim, prim ∈ unsupported_prims ∧ occurs_in "cat" prim) →
            (∀ d0, prims_body d0 (Samples.prim "cat") = Ok d0)
            ∧ ("torch.ops.prims." +:+ "cat" ∈ dom d
               ↔ ∃ k v, (k, v) ∈ [(ObjOpOverload Samples.aten_cat_default,
                                    Samples.ref_impl)]
                        ∧ defined_in_refs v
                        ∧ table_key k = "torch.ops.prims." +:+ "cat"))
       ∧ ((∀ prim, prim ∈ unsupported_prims → ¬ occurs_in "cat" prim) →
            (∀ d0, prims_body d0 (Samples.prim "cat")
                   = Ok (<["torch.ops.prims." +:+ "cat":=tt]> d0))
            ∧ "torch.ops.prims." +:+ "cat" ∈ dom d).
Proof.
  assert (Samples.prim "cat" ∈ [Samples.prim "cat"; Samples.prim "catalog"])
    as Hin by (apply elem_of_cons; left; reflexivity).
  split; [exact Hin|]. split; [reflexivity|].
  exact (prims_denylist_amended
           [(ObjOpOverload Samples.aten_cat_default, Samples.ref_impl)]
           [Samples.prim "cat"; Samples.prim "catalog"]
           "cat" (Samples.prim "cat").2 Hin eq_refl).
Defined.

(** * Further properties of the constructor *)

(** ** What the table of the full mode holds *)

(** X1: in the full mode the constructor returns a table whose keys are
    exactly the keys of the TorchScript display, the keys
    "torch.ops." + [str] of the packet of the entries of the decomposition
    table whose [__module__] mentions "torch._refs", and the keys
    "torch.ops.prims." + name of the operators of the [prims] namespace
    whose name occurs inside none of the listed names.  Nothing else is
    ever added. *)
Theorem full_mode_table_exact (reg : DecompositionTable) (prims : OpNamespace) :
  ∃ d, __init__ false reg prims = Ok d
    ∧ ∀ key, key ∈ dom d
        ↔ key ∈ jit_keys
          ∨ (∃ k v, (k, v) ∈ reg ∧ defined_in_refs v ∧ key = table_key k)
          ∨ (∃ op attr, (op, attr) ∈ prims
                ∧ isinstance_OpOverloadPacket attr = true
                ∧ (∀ prim, prim ∈ unsupported_prims → ¬ occurs_in op prim)
                ∧ key = "torch.ops.prims." +:+ op).
Proof.
  eexists. split; [apply init_full|]. intros key.
  rewrite elem_of_init_full, elem_of_decomposition_keys, elem_of_prims_keys.
  setoid_rewrite from_refs_true. setoid_rewrite unsupported_false.
  reflexivity.
Qed.

(** ** Attributes of the namespace that are not operators *)

Lemma prims_keys_skip (prims1 prims2 : OpNamespace) (name : string)
    (attr : PyObject) :
  isinstance_OpOverloadPacket attr = false →
  prims_keys (prims1 ++ (name, attr) :: prims2) = prims_keys (prims1 ++ prims2).
Proof.
  intros Hattr. unfold prims_keys.
  rewrite !filter_app, filter_cons. simpl.
  rewrite decide_False; [done | intros [? _]; congruence].
Qed.

(** X2: an attribute of [torch.ops.prims] that is not an
    [OpOverloadPacket] is passed over, whatever its name: the loop body
    returns the table it was given, and the constructor returns what it
    returns for the namespace without that attribute. *)
Theorem non_operator_attribute_ignored (use_only_jit_ops : bool)
    (reg : DecompositionTable) (prims1 prims2 : OpNamespace) (name : string)
    (attr : PyObject) :
  isinstance_OpOverloadPacket attr = false →
  (∀ d0, prims_body d0 (name, attr) = Ok d0)
  ∧ __init__ use_only_jit_ops reg (prims1 ++ (name, attr) :: prims2)
    = __init__ use_only_jit_ops reg (prims1 ++ prims2).
Proof.
  intros Hattr. split.
  - intros d0. by rewrite prims_body_eq, Hattr.
  - destruct use_only_jit_ops; [by rewrite !init_legacy|].
    by rewrite !init_full, prims_keys_skip.
Qed.

Lemma non_operator_attribute_ignored_witness :
  isinstance_OpOverloadPacket (ObjOther "<function>") = false
  ∧ (∀ d0, prims_body d0 ("add", ObjOther "<function>") = Ok d0)
  ∧ __init__ false [] [Samples.prim "abs"; ("add", ObjOther "<function>")]
    = __init__ false [] [Samples.prim "abs"].
Proof.
  split; [reflexivity|].
  exact (non_operator_attribute_ignored false [] [Samples.prim "abs"] []
           "add" (ObjOther "<function>") eq_refl).
Defined.

(** ** Growing the registries *)

(** X3: the table of the full mode grows with the registries: when every
    entry of one decomposition table is an entry of a second, and every
    attribute of one namespace an attribute of a second, every key of the
    first table is a key of the second. *)
Theorem table_grows_with_registries (reg reg' : DecompositionTable)
    (prims prims' : OpNamespace) :
  (∀ item, item ∈ reg → item ∈ reg') →
  (∀ item, item ∈ prims → item ∈ prims') →
  ∃ d d', __init__ false reg prims = Ok d
        ∧ __init__ false reg' prims' = Ok d'
        ∧ dom d ⊆ dom d'.
Proof.
  intros Hreg Hprims. do 2 eexists.
  split; [apply init_full|]. split; [apply init_full|].
  intros key. rewrite !elem_of_init_full.
  rewrite !elem_of_decomposition_keys, !elem_of_prims_keys.
  intros [Hjit|[(k & v & Hin & Hrest)|(op & attr & Hin & Hrest)]].
  - by left.
  - right; left. exists k, v. split; [by apply Hreg | exact Hrest].
  - right; right. exists op, attr. split; [by apply Hprims | exact Hrest].
Qed.

Lemma table_grows_with_registries_witness :
  let small := [(ObjOpOverload Samples.aten_mm_default, Samples.ref_impl)] in
  let large := [(ObjOpOverload Samples.aten_cat_default, Samples.ref_impl);
                (ObjOpOverload Samples.aten_mm_default, Samples.ref_impl)] in
  (∀ item, item ∈ small → item ∈ large)
  ∧ (∀ item, item ∈ [Samples.prim "add"]
             → item ∈ [Samples.prim "add"; Samples.prim "abs"])
  ∧ ∃ d d', __init__ false small [Samples.prim "add"] = Ok d
          ∧ __init__ false large [Samples.prim "add"; Samples.prim "abs"] = Ok d'
          ∧ dom d ⊆ dom d'.
Proof.
  intros small large.
  assert (∀ item, item ∈ small → item ∈ large) as Hreg
    by (intros item; unfold small, large; rewrite !elem_of_cons; tauto).
  assert (∀ item, item ∈ [Samples.prim "add"]
                  → item ∈ [Samples.prim "add"; Samples.prim "abs"]) as Hprims
    by (intros item; rewrite !elem_of_cons; tauto).
  split; [exact Hreg|]. split; [exact Hprims|].
  exact (table_grows_with_registries small large _ _ Hreg Hprims).
Defined.

(** ** The two loops together *)

Lemma add_keys_absorbed (d : gmap string unit) (keys : list string) :
  (∀ key, key ∈ keys → key ∈ dom d) → add_keys d keys = d.
Proof.
  intros Hkeys. apply unit_dict_eq. rewrite dom_add_keys.
  apply set_eq. intros key. rewrite elem_of_union, elem_of_list_to_set.
  split; [intros [H|H]; [exact H | by apply Hkeys] | by left].
Qed.

Lemma add_keys_comm (d : gmap string unit) (keys1 keys2 : list string) :
  add_keys (add_keys d keys1) keys2 = add_keys (add_keys d keys2) keys1.
Proof.
  apply unit_dict_eq. rewrite !dom_add_keys.
  apply set_eq. intros key. rewrite !elem_of_union. tauto.
Qed.

Lemma size_add_keys_le (d : gmap string unit) (keys : list string) :
  (size (add_keys d keys) ≤ size d + length keys)%nat.
Proof.
  unfold add_keys. revert d. induction keys as [|k keys IH]; intros d; simpl.
  - lia.
  - specialize (IH (<[k:=tt]> d)). pose proof (size_insert_le d k). lia.
Qed.

(** X4: the order of the two loops is immaterial: from any table, the
    loop over the decomposition table followed by the loop over the
    namespace returns the same table as the two loops in the other
    order. *)
Theorem loops_commute (reg : DecompositionTable) (prims : OpNamespace)
    (d0 : gmap string unit) :
  ∃ d, for_each decomposition_body reg d0 ≫= for_each prims_body prims = Ok d
     ∧ for_each prims_body prims d0 ≫= for_each decomposition_body reg = Ok d.
Proof.
  eexists. split.
  - by rewrite decomposition_loop, bind_Ok, prims_loop.
  - by rewrite prims_loop, bind_Ok, decomposition_loop, add_keys_comm.
Qed.

(** X5: the loops add nothing to their own result: run again over the
    table the constructor returned, from the same registries, each loop
    returns that table unchanged. *)
Theorem loops_idempotent (reg : DecompositionTable) (prims : OpNamespace) :
  ∃ d, __init__ false reg prims = Ok d
     ∧ for_each decomposition_body reg d = Ok d
     ∧ for_each prims_body prims d = Ok d.
Proof.
  eexists. split; [apply init_full|]. split.
  - rewrite decomposition_loop. f_equal. apply add_keys_absorbed.
    intros key Hkey. apply elem_of_init_full. tauto.
  - rewrite prims_loop. f_equal. apply add_keys_absorbed.
    intros key Hkey. apply elem_of_init_full. tauto.
Qed.

(** X6: the table of the full mode has at least the 106 keys of the
    TorchScript display, and at most one more for each entry of the
    decomposition table and each attribute of the namespace. *)
Theorem table_size_bounds (reg : DecompositionTable) (prims : OpNamespace) :
  ∃ d, __init__ false reg prims = Ok d
     ∧ size jit_dict = 106%nat
     ∧ (size jit_dict ≤ size d)%nat
     ∧ (size d ≤ size jit_dict + length reg + length prims)%nat.
Proof.
  eexists. split; [apply init_full|].
  split; [vm_compute; reflexivity|]. split.
  - rewrite <- !size_dom. apply subseteq_size.
    rewrite !dom_add_keys. intros key Hkey. rewrite !elem_of_union. tauto.
  - pose proof (size_add_keys_le (add_keys jit_dict (decomposition_keys reg))
                  (prims_keys prims)) as H1.
    pose proof (size_add_keys_le jit_dict (decomposition_keys reg)) as H2.
    assert (length (decomposition_keys reg) ≤ length reg)%nat as H3
      by (unfold decomposition_keys; rewrite length_fmap; apply length_filter).
    assert (length (prims_keys prims) ≤ length prims)%nat as H4
      by (unfold prims_keys; rewrite length_fmap; apply length_filter).
    lia.
Qed.

(** ** Names the list can skip *)

Lemma length_append (s t : string) :
  String.length (s +:+ t) = (String.length s + String.length t)%nat.
Proof.
  induction s as [|c s IH]; [done|].
  rewrite append_cons. simpl. by rewrite IH.
Qed.

Lemma occurs_in_length (s t : string) :
  occurs_in s t → (String.length s ≤ String.length t)%nat.
Proof. intros (before & after & ->). rewrite !length_append. lia. Qed.

(** X7: the test [op in prim] can only hold for a name no longer than
    the listed name it is looked for in, so an operator of the namespace
    whose name has more than nine characters (the length of "transpose")
    is never skipped: its key is in the table of the full mode. *)
Theorem long_names_never_skipped (reg : DecompositionTable)
    (prims : OpNamespace) (op : string) (attr : PyObject) :
  (op, attr) ∈ prims → isinstance_OpOverloadPacket attr = true →
  (9 < String.length op)%nat →
  unsupported op = false
  ∧ ∃ d, __init__ false reg prims = Ok d ∧ "torch.ops.prims." +:+ op ∈ dom d.
Proof.
  intros Hin Hattr Hlen.
  assert (unsupported op = false) as Hu.
  { apply unsupported_false. intros prim Hprim Hocc%occurs_in_length.
    unfold unsupported_prims in Hprim.
    rewrite !elem_of_cons, elem_of_nil in Hprim.
    destruct Hprim as [->|[->|[->|[]]]]; simpl in Hocc; lia. }
  split; [exact Hu|]. eexists. split; [apply init_full|].
  apply elem_of_init_full. right; right. apply elem_of_prims_keys. eauto 6.
Qed.

Lemma long_names_never_skipped_witness :
  (Samples.prim "transpose_copy" ∈ [Samples.prim "transpose_copy"])
  ∧ (9 < String.length "transpose_copy")%nat
  ∧ unsupported "transpose_copy" = false
  ∧ ∃ d, __init__ false [] [Samples.prim "transpose_copy"] = Ok d
       ∧ "torch.ops.prims." +:+ "transpose_copy" ∈ dom d.
Proof.
  assert (Samples.prim "transpose_copy" ∈ [Samples.prim "transpose_copy"])
    as Hin by (apply elem_of_cons; left; reflexivity).
  assert (9 < String.length "transpose_copy")%nat as Hlen by (simpl; lia).
  split; [exact Hin|]. split; [exact Hlen|].
  exact (long_names_never_skipped [] [Samples.prim "transpose_copy"]
           "transpose_copy" (Samples.prim "transpose_copy").2 Hin eq_refl Hlen).
Defined.

(** ** The shape of the keys *)

(** X8: in either mode every key of the table is "getattr",
    "_operator.getitem", or a name under "torch.ops.": no registry content
    can make the constructor write a key of another shape. *)
Theorem table_keys_shape (use_only_jit_ops : bool) (reg : DecompositionTable)
    (prims : OpNamespace) :
  ∃ d, __init__ use_only_jit_ops reg prims = Ok d
     ∧ ∀ key, key ∈ dom d →
         key = "getattr" ∨ key = "_operator.getitem"
         ∨ ∃ rest, key = "torch.ops." +:+ rest.
Proof.
  assert (∀ key, key ∈ jit_keys →
            key = "getattr" ∨ key = "_operator.getitem"
            ∨ ∃ rest, key = "torch.ops." +:+ rest) as Hjit.
  { assert (forallb (λ key, String.eqb key "getattr"
                            || String.eqb key "_operator.getitem"
                            || String.prefix "torch.ops." key) jit_keys = true)
      as Hall by (vm_compute; reflexivity).
    intros key Hkey%list_elem_of_In.
    rewrite forallb_forall in Hall. specialize (Hall _ Hkey).
    apply orb_prop in Hall as [[H%String.eqb_eq|H%String.eqb_eq]%orb_prop|H].
    - by left.
    - by right; left.
    - right; right. by apply prefix_true. }
  destruct use_only_jit_ops.
  - exists jit_dict. split; [apply init_legacy|].
    intros key Hkey. apply Hjit. unfold jit_dict in Hkey.
    rewrite dom_dict_display in Hkey. by apply elem_of_list_to_set in Hkey.
  - eexists. split; [apply init_full|]. intros key.
    rewrite elem_of_init_full, elem_of_decomposition_keys, elem_of_prims_keys.
    intros [Hkey|[(k & v & _ & _ & ->)|(op & attr & _ & _ & _ & ->)]].
    + by apply Hjit.
    + right; right. by exists (canonical_name k).
    + right; right. by exists ("prims." +:+ op).
Qed.

(** ** Counting the keys *)

Lemma size_add_keys_fresh (d : gmap string unit) (keys : list string) :
  NoDup keys → (∀ key, key ∈ keys → key ∉ dom d) →
  size (add_keys d keys) = (size d + length keys)%nat.
Proof.
  unfold add_keys. revert d.
  induction keys as [|k keys IH]; intros d Hnodup Hfresh; simpl; [lia|].
  apply NoDup_cons in Hnodup as [Hk Hnodup].
  rewrite IH; [|exact Hnodup|].
  - rewrite map_size_insert_None; [lia|].
    apply not_elem_of_dom, Hfresh. by left.
  - intros key Hkey. rewrite dom_insert_L, elem_of_union, elem_of_singleton.
    intros [->|Hin]; [done|]. apply (Hfresh key); [by right | exact Hin].
Qed.

Lemma NoDup_prims_keys (prims : OpNamespace) :
  NoDup prims.*1 → NoDup (prims_keys prims).
Proof.
  induction prims as [|[op attr] prims IH]; [constructor|].
  rewrite fmap_cons. intros [Hop Hnodup]%NoDup_cons.
  change (prims_keys ((op, attr) :: prims))
    with ((λ item : string * PyObject, "torch.ops.prims." +:+ item.1)
            <$> filter (λ item, isinstance_OpOverloadPacket item.2 = true
                                ∧ unsupported item.1 = false)
                  ((op, attr) :: prims)).
  rewrite filter_cons. case_decide; [|by apply IH].
  rewrite fmap_cons. apply NoDup_cons. split; [|by apply IH].
  intros (op' & attr' & Hin' & _ & _ & Heq)%elem_of_prims_keys.
  apply append_inj_l in Heq as <-. apply Hop.
  apply list_elem_of_fmap. by exists (op, attr').
Qed.

(** X9: with an empty decomposition table and a namespace whose names
    are pairwise different, as those [dir] returns are, the table of the
    full mode has exactly the 106 keys of the TorchScript display and one
    key for each operator the list does not skip: no two operators share
    a key and none takes the key of a TorchScript entry. *)
Theorem table_size_exact (prims : OpNamespace) :
  NoDup prims.*1 →
  ∃ d, __init__ false [] prims = Ok d
     ∧ size d
       = (106 + length (filter (λ item, isinstance_OpOverloadPacket item.2 = true
                                        ∧ unsupported item.1 = false) prims))%nat.
Proof.
  intros Hnodup. eexists. split; [apply init_full|].
  change (decomposition_keys []) with (@nil string).
  change (add_keys jit_dict []) with jit_dict.
  rewrite size_add_keys_fresh.
  - assert (size jit_dict = 106%nat) as -> by (vm_compute; reflexivity).
    unfold prims_keys. by rewrite length_fmap.
  - by apply NoDup_prims_keys.
  - intros key (op & attr & _ & _ & _ & ->)%elem_of_prims_keys.
    unfold jit_dict. rewrite dom_dict_display, elem_of_list_to_set.
    apply jit_keys_not_prims.
Qed.

Lemma table_size_exact_witness :
  NoDup [Samples.prim "add"; Samples.prim "cat"; ("name", ObjOther "prims")].*1
  ∧ ∃ d, __init__ false []
           [Samples.prim "add"; Samples.prim "cat"; ("name", ObjOther "prims")]
         = Ok d
       ∧ size d = 107%nat.
Proof.
  assert (NoDup [Samples.prim "add"; Samples.prim "cat";
                 ("name", ObjOther "prims")].*1) as Hnodup.
  { apply (bool_decide_unpack _). vm_compute. exact I. }
  split; [exact Hnodup|].
  exact (table_size_exact
           [Samples.prim "add"; Samples.prim "cat"; ("name", ObjOther "prims")]
           Hnodup).
Defined.

(** ** When nothing qualifies *)

(** X10: when no entry of the decomposition table comes from
    "torch._refs" and every operator of the namespace has a name inside
    one of the listed names, the full mode returns the table of the
    TorchScript-only mode; empty registries are the plainest case. *)
Theorem full_mode_degenerates_to_legacy (reg : DecompositionTable)
    (prims : OpNamespace) :
  (∀ k v, (k, v) ∈ reg → ¬ defined_in_refs v) →
  (∀ op attr, (op, attr) ∈ prims → isinstance_OpOverloadPacket attr = true →
     ∃ prim, prim ∈ unsupported_prims ∧ occurs_in op prim) →
  __init__ false reg prims = __init__ true reg prims
  ∧ __init__ false reg prims = Ok jit_dict
  ∧ __init__ false [] [] = Ok jit_dict.
Proof.
  intros Hreg Hprims.
  assert (__init__ false reg prims = Ok jit_dict) as Hfull.
  { rewrite init_full. f_equal.
    rewrite add_keys_absorbed.
    - apply add_keys_absorbed.
      intros key (k & v & Hin & Hv%from_refs_true & _)%elem_of_decomposition_keys.
      by destruct (Hreg k v).
    - intros key (op & attr & Hin & Hattr & Hu & _)%elem_of_prims_keys.
      assert (unsupported op = true) as Hu'
        by (apply unsupported_true; eauto).
      congruence. }
  split; [by rewrite Hfull, init_legacy|]. split; [exact Hfull|].
  reflexivity.
Qed.

Lemma full_mode_degenerates_to_legacy_witness :
  let reg := [(ObjOpOverload Samples.aten_mm_default, Samples.decomp_impl);
              (ObjOpOverload Samples.aten_add_Tensor, Samples.no_module)] in
  let prims := [Samples.prim "cat"; Samples.prim "max";
                ("name", ObjOther "prims")] in
  (∀ k v, (k, v) ∈ reg → ¬ defined_in_refs v)
  ∧ (∀ op attr, (op, attr) ∈ prims → isinstance_OpOverloadPacket attr = true →
       ∃ prim, prim ∈ unsupported_prims ∧ occurs_in op prim)
  ∧ __init__ false reg prims = __init__ true reg prims
  ∧ __init__ false reg prims = Ok jit_dict.
Proof.
  intros reg prims.
  assert (∀ k v, (k, v) ∈ reg → ¬ defined_in_refs v) as Hreg.
  { intros k v Hin. unfold reg in Hin.
    rewrite !elem_of_cons, elem_of_nil in Hin.
    destruct Hin as [[= -> ->]|[[= -> ->]|[]]];
      apply from_refs_false; vm_compute; reflexivity. }
  assert (∀ op attr, (op, attr) ∈ prims →
            isinstance_OpOverloadPacket attr = true →
            ∃ prim, prim ∈ unsupported_prims ∧ occurs_in op prim) as Hprims.
  { intros op attr Hin Hattr. unfold prims in Hin.
    rewrite !elem_of_cons, elem_of_nil in Hin.
    destruct Hin as [[= -> ->]|[[= -> ->]|[[= -> ->]|[]]]].
    - apply unsupported_true. vm_compute. reflexivity.
    - apply unsupported_true. vm_compute. reflexivity.
    - discriminate Hattr. }
  split; [exact Hreg|]. split; [exact Hprims|].
  destruct (full_mode_degenerates_to_legacy reg prims Hreg Hprims)
    as (H1 & H2 & _).
  split; [exact H1 | exact H2].
Defined.
